(** * MVC-TodoList: the client of [index.js], embedded and verified

    The script is made of four objects: [APIs] (three calls to the REST
    endpoint), [Model] (the class [state], an observable list), [View] (the
    input field and the list container) and [Controller] (the event
    listeners and the promise chains between them).  Each one is a module
    below, translated from the source; the platform the script runs on
    (fetch, promises, the HTML parser behind [innerHTML]) is modelled
    next to the object that uses it. *)

From Stdlib Require Import ZArith Ascii String List Lia.
From stdpp Require Import base option list strings gmap.

Local Open Scope string_scope.

(** ** Data *)

(** A todo item as the server stores it.  The identifier is kept in the
    form the script uses it in: interpolated in the markup and read back
    with [getAttribute], that is as a string. *)
Record Item := { id : string; content : string }.

(** Other JSON values: what the server may answer where the script does not
    look at the answer. *)
#[local] Unset Elimination Schemes.
Inductive json :=
| JNull
| JBool (b : bool)
| JNum (z : Z)
| JStr (s : string)
| JArr (elems : list json)
| JObj (fields : list (string * json)).
#[local] Set Elimination Schemes.

(** A parsed response body, by shape. *)
Inductive value :=
| VItems (l : list Item)
| VItem (t : Item)
| VOther (j : json).

(** What a promise can be rejected with, or a call can throw.
    [NetworkError] is the rejection of [fetch], [ParseError] the one of
    [res.json()], [TypeError] the call of something that is not a function.
    [HTTPError] is in the taxonomy for a non-success status. *)
Inductive error :=
| NetworkError
| HTTPError (status : Z)
| ParseError
| TypeError.

Inductive settled (A : Type) :=
| Fulfilled (a : A)
| Rejected (e : error).
Arguments Fulfilled {A} a.
Arguments Rejected {A} e.

(** ** The APIs object *)
Module APIs.

Inductive method := GET | POST | DELETE.

(** The object literal [{ content: inputValue }] handed to [createTodo]. *)
Record newTodo := { nt_content : string }.

(** The arguments of one call of [fetch]: the URL, the method, whether
    the [Content-Type: application/json] header is given, and the value
    that is stringified into the body. *)
Record request := {
  url : string;
  meth : method;
  content_type_json : bool;
  body : option newTodo
}.

(** A response: its status and what [res.json()] settles to ([None]: the
    body is not JSON). *)
Record response := { status : Z; json_body : option value }.

(** [fetch] either fails to reach the server or gets a response, of any
    status. *)
Inductive transport :=
| Failed
| Responded (res : response).

Definition ok (res : response) : bool :=
  ((200 <=? status res) && (status res <=? 299))%Z.

Definition baseURL : string := "http://localhost:3000/todos".

(** [res.json()] *)
Definition res_json (res : response) : settled value :=
  match json_body res with
  | Some v => Fulfilled v
  | None => Rejected ParseError
  end.

(** [fetch(...).then((res) => res.json())]: the promise of [fetch] is
    rejected on a transport failure only. *)
Definition fetch_then_json (t : transport) : settled value :=
  match t with
  | Failed => Rejected NetworkError
  | Responded res => res_json res
  end.

(** A call of the API: the request it sends and how the promise it
    returns settles once the transport has an outcome. *)
Record call := { req : request; settle : transport -> settled value }.

(** The template literal converts its argument to a string: [null], which
    [getAttribute] returns for a missing attribute, reads [null]. *)
Definition template_id (i : option string) : string :=
  match i with
  | Some s => s
  | None => "null"
  end.

Definition getTodos : call :=
  {| req := {| url := baseURL; meth := GET;
               content_type_json := false; body := None |};
     settle := fetch_then_json |}.

Definition createTodo (n : newTodo) : call :=
  {| req := {| url := baseURL; meth := POST;
               content_type_json := true; body := Some n |};
     settle := fetch_then_json |}.

Definition deleteTodo (i : option string) : call :=
  {| req := {| url := baseURL +:+ "/" +:+ template_id i; meth := DELETE;
               content_type_json := true; body := None |};
     settle := fetch_then_json |}.

End APIs.

(** ** The Model object: the class [state] *)
Module Model.
Section state.

(** What a callback acts on: everything but the container itself. *)
Context {W : Type}.

(** A callback is called with no argument.  The fields of the container
    are private, so what a callback sees of it is what the getter
    returns when the callback runs: the model hands it that list. *)
Definition callback : Type := list Item -> W -> W.

Record state := { todos : list Item; onChange : option callback }.

(** [constructor()] *)
Definition new_state : state := {| todos := []; onChange := None |}.

(** [get todos()] *)
Definition get_todos (s : state) : list Item := todos s.

(** [set todos(newTodos)]: the field is written, then [#onChange] is
    called, whatever it holds; calling [undefined] throws after the
    write.  Returns the container, the world and what was thrown. *)
Definition set_todos (newTodos : list Item) (s : state) (w : W)
  : state * W * option error :=
  let s1 := {| todos := newTodos; onChange := onChange s |} in
  match onChange s1 with
  | Some cb => (s1, cb (get_todos s1) w, None)
  | None => (s1, w, Some TypeError)
  end.

(** [subscribe(cb)] *)
Definition subscribe (cb : callback) (s : state) : state :=
  {| todos := todos s; onChange := Some cb |}.

(** A run of assignments [s.todos = l1; ...; s.todos = ln]: a throw ends
    the run. *)
Fixpoint assign_all (ls : list (list Item)) (s : state) (w : W)
  : state * W * option error :=
  match ls with
  | [] => (s, w, None)
  | l :: ls' =>
      match set_todos l s w with
      | (s1, w1, None) => assign_all ls' s1 w1
      | r => r
      end
  end.

End state.
Arguments state W : clear implicits.
Arguments callback W : clear implicits.
End Model.

(** ** The platform behind [innerHTML]

    Assigning to [innerHTML] hands the string to the HTML parser and puts
    the nodes it builds in place of the children of the element.  The
    model below covers the part of the HTML standard's tokenizer and tree
    builder that the markup of the view exercises: text, start tags with
    attributes (unquoted, single- or double-quoted values), end tags, and
    the elements [div] and [button] properly nested.  Outside of it
    (character references, comments, self-closing or other tags, stray end
    tags, NUL and CR) the parser of the model gives [None]. *)
Module DOM.

#[local] Unset Elimination Schemes.
Inductive node :=
| Text (data : string)
| Element (tagName : string) (attributes : list (string * string))
          (childNodes : list node).
#[local] Set Elimination Schemes.

Inductive token :=
| TChar (c : ascii)
| TStart (name : string) (attrs : list (string * string))
| TEnd (name : string).

(** A tag being read: end tag or start tag, name, attributes so far. *)
Record tag := { closing : bool; tname : string;
                tattrs : list (string * string) }.

(** The states of the tokenizer, named after the standard's. *)
Inductive tstate :=
| Data
| TagOpen
| EndTagOpen
| TagName (t : tag)
| BeforeAttrName (t : tag)
| AttrName (t : tag) (an : string)
| AfterAttrName (t : tag) (an : string)
| BeforeAttrValue (t : tag) (an : string)
| AttrValueDQ (t : tag) (an av : string)
| AttrValueSQ (t : tag) (an av : string)
| AttrValueUnq (t : tag) (an av : string)
| AfterAttrValueQ (t : tag).

Definition is_ws (c : ascii) : bool :=
  match nat_of_ascii c with
  | 9 | 10 | 12 | 32 => true
  | _ => false
  end.

(** Characters the model does not read: NUL, CR and the ampersand. *)
Definition unread (c : ascii) : bool :=
  match nat_of_ascii c with
  | 0 | 13 | 38 => true
  | _ => false
  end.

Definition is_upper (c : ascii) : bool :=
  ((65 <=? nat_of_ascii c) && (nat_of_ascii c <=? 90))%nat.

Definition is_alpha (c : ascii) : bool :=
  is_upper c || ((97 <=? nat_of_ascii c) && (nat_of_ascii c <=? 122))%nat.

Definition lower (c : ascii) : ascii :=
  if is_upper c then ascii_of_nat (nat_of_ascii c + 32) else c.

Definition snoc (s : string) (c : ascii) : string :=
  s +:+ String c EmptyString.

Definition has_attr (an : string) (attrs : list (string * string)) : bool :=
  existsb (fun kv => String.eqb (fst kv) an) attrs.

(** A second attribute of the same name is dropped. *)
Definition add_attr (an av : string) (t : tag) : tag :=
  {| closing := closing t; tname := tname t;
     tattrs := if has_attr an (tattrs t) then tattrs t
               else tattrs t ++ [(an, av)] |}.

Definition name_snoc (t : tag) (c : ascii) : tag :=
  {| closing := closing t; tname := snoc (tname t) (lower c);
     tattrs := tattrs t |}.

Definition emit (t : tag) : list token :=
  if closing t then [TEnd (tname t)] else [TStart (tname t) (tattrs t)].

Definition new_tag (cl : bool) (c : ascii) : tag :=
  {| closing := cl; tname := String (lower c) EmptyString; tattrs := [] |}.

Definition lt_sign : ascii := "<"%char.
Definition gt_sign : ascii := ">"%char.
Definition slash : ascii := "/"%char.
Definition eq_sign : ascii := "="%char.
Definition dq : ascii := "034"%char.
Definition sq : ascii := "039"%char.

(** One character in the data state. *)
Definition data_step (c : ascii) : tstate * list token :=
  if Ascii.eqb c lt_sign then (TagOpen, []) else (Data, [TChar c]).

(** One character: the next state and the tokens emitted. *)
Definition tok_step (st : tstate) (c : ascii)
  : option (tstate * list token) :=
  if unread c then None else
  match st with
  | Data => Some (data_step c)
  | TagOpen =>
      if Ascii.eqb c slash then Some (EndTagOpen, [])
      else if is_alpha c then Some (TagName (new_tag false c), [])
      else if Ascii.eqb c (ascii_of_nat 33) || Ascii.eqb c (ascii_of_nat 63)
      then None
      else let '(st1, out) := data_step c in Some (st1, TChar lt_sign :: out)
  | EndTagOpen =>
      if is_alpha c then Some (TagName (new_tag true c), []) else None
  | TagName t =>
      if is_ws c then Some (BeforeAttrName t, [])
      else if Ascii.eqb c slash then None
      else if Ascii.eqb c gt_sign then Some (Data, emit t)
      else Some (TagName (name_snoc t c), [])
  | BeforeAttrName t =>
      if is_ws c then Some (BeforeAttrName t, [])
      else if Ascii.eqb c slash || Ascii.eqb c eq_sign then None
      else if Ascii.eqb c gt_sign then Some (Data, emit t)
      else Some (AttrName t (String (lower c) EmptyString), [])
  | AttrName t an =>
      if is_ws c then Some (AfterAttrName t an, [])
      else if Ascii.eqb c slash then None
      else if Ascii.eqb c gt_sign
      then Some (Data, emit (add_attr an EmptyString t))
      else if Ascii.eqb c eq_sign then Some (BeforeAttrValue t an, [])
      else Some (AttrName t (snoc an (lower c)), [])
  | AfterAttrName t an =>
      if is_ws c then Some (AfterAttrName t an, [])
      else if Ascii.eqb c slash then None
      else if Ascii.eqb c eq_sign then Some (BeforeAttrValue t an, [])
      else if Ascii.eqb c gt_sign
      then Some (Data, emit (add_attr an EmptyString t))
      else Some (AttrName (add_attr an EmptyString t)
                   (String (lower c) EmptyString), [])
  | BeforeAttrValue t an =>
      if is_ws c then Some (BeforeAttrValue t an, [])
      else if Ascii.eqb c dq then Some (AttrValueDQ t an EmptyString, [])
      else if Ascii.eqb c sq then Some (AttrValueSQ t an EmptyString, [])
      else if Ascii.eqb c gt_sign
      then Some (Data, emit (add_attr an EmptyString t))
      else Some (AttrValueUnq t an (String c EmptyString), [])
  | AttrValueDQ t an av =>
      if Ascii.eqb c dq then Some (AfterAttrValueQ (add_attr an av t), [])
      else Some (AttrValueDQ t an (snoc av c), [])
  | AttrValueSQ t an av =>
      if Ascii.eqb c sq then Some (AfterAttrValueQ (add_attr an av t), [])
      else Some (AttrValueSQ t an (snoc av c), [])
  | AttrValueUnq t an av =>
      if is_ws c then Some (BeforeAttrName (add_attr an av t), [])
      else if Ascii.eqb c gt_sign then Some (Data, emit (add_attr an av t))
      else Some (AttrValueUnq t an (snoc av c), [])
  | AfterAttrValueQ t =>
      if is_ws c then Some (BeforeAttrName t, [])
      else if Ascii.eqb c gt_sign then Some (Data, emit t)
      else None
  end.

(** The tokenizer run over a string: the state it ends in and the tokens
    it emitted. *)
Fixpoint tok_run (st : tstate) (s : string)
  : option (tstate * list token) :=
  match s with
  | EmptyString => Some (st, [])
  | String c s' =>
      match tok_step st c with
      | None => None
      | Some (st1, out) =>
          match tok_run st1 s' with
          | None => None
          | Some (st2, rest) => Some (st2, (out ++ rest)%list)
          end
      end
  end.

(** The tokens of a string; the end of the input inside a tag is not
    read. *)
Definition tokenize (s : string) : option (list token) :=
  match tok_run Data s with
  | Some (Data, ts) => Some ts
  | _ => None
  end.

(** The tree builder.  [kids] are the children built so far of the node
    the parser is in, last child first; [opened] are the elements that
    are open, innermost first, each with the children its parent had
    when it was opened. *)
Record frame := { ftag : string; fattrs : list (string * string);
                  fbefore : list node }.
Record builder := { kids : list node; opened : list frame }.

(** A character goes to the text node that ends the children, if there
    is one, and to a new text node otherwise. *)
Definition insert_char (c : ascii) (ks : list node) : list node :=
  match ks with
  | Text d :: ks' => Text (snoc d c) :: ks'
  | _ => Text (String c EmptyString) :: ks
  end.

Definition push (name : string) (attrs : list (string * string))
    (b : builder) : builder :=
  {| kids := [];
     opened := {| ftag := name; fattrs := attrs; fbefore := kids b |}
               :: opened b |}.

Definition button_open (b : builder) : bool :=
  existsb (fun f => String.eqb (ftag f) "button") (opened b).

Definition tree_step (b : builder) (t : token) : option builder :=
  match t with
  | TChar c => Some {| kids := insert_char c (kids b); opened := opened b |}
  | TStart name attrs =>
      if String.eqb name "div" then Some (push name attrs b)
      else if String.eqb name "button" then
        if button_open b then None else Some (push name attrs b)
      else None
  | TEnd name =>
      match opened b with
      | f :: fs =>
          if String.eqb (ftag f) name then
            Some {| kids := Element (ftag f) (fattrs f) (rev (kids b))
                            :: fbefore f;
                    opened := fs |}
          else None
      | [] => None
      end
  end.

Fixpoint build (b : builder) (ts : list token) : option builder :=
  match ts with
  | [] => Some b
  | t :: ts' =>
      match tree_step b t with
      | Some b1 => build b1 ts'
      | None => None
      end
  end.

Definition finish (b : builder) : option (list node) :=
  match opened b with
  | [] => Some (rev (kids b))
  | _ => None
  end.

(** The children an element gets when the string is assigned to its
    [innerHTML]. *)
Definition parse (s : string) : option (list node) :=
  match tokenize s with
  | None => None
  | Some ts =>
      match build {| kids := []; opened := [] |} ts with
      | None => None
      | Some b => finish b
      end
  end.

(** *** Reading the tree *)

Definition is_element (n : node) : bool :=
  match n with
  | Element _ _ _ => true
  | Text _ => false
  end.

(** The element children of a node list. *)
Definition children (ns : list node) : list node :=
  List.filter is_element ns.

Fixpoint assoc (k : string) (kvs : list (string * string)) : option string :=
  match kvs with
  | [] => None
  | (k1, v) :: kvs' => if String.eqb k1 k then Some v else assoc k kvs'
  end.

(** [getAttribute(name)] *)
Definition getAttribute (name : string) (n : node) : option string :=
  match n with
  | Element _ attrs _ => assoc name attrs
  | Text _ => None
  end.

(** [className]: the [class] attribute, or the empty string. *)
Definition className (n : node) : string :=
  match getAttribute "class" n with
  | Some s => s
  | None => EmptyString
  end.

(** How many elements of class [cls] a node is or contains. *)
Fixpoint count_class (cls : string) (n : node) : nat :=
  match n with
  | Text _ => 0
  | Element _ _ ks =>
      (if String.eqb (className n) cls then 1 else 0)
      + list_sum (map (count_class cls) ks)
  end.

(** The text nodes among the children of a node. *)
Definition texts (n : node) : list string :=
  match n with
  | Text _ => []
  | Element _ _ ks =>
      flat_map (fun k => match k with Text d => [d] | _ => [] end) ks
  end.

End DOM.

(** ** The View object *)
Module View.

(** The part of the document the script touches: the value of the input
    field [#todo_input] and the markup of [#todo_list-container]. *)
Record Page := { inputEl_value : string; todolistEl_innerHTML : string }.

Definition nl : string := String "010" EmptyString.
Definition dquote : string := String "034" EmptyString.
Definition sp12 : string := "            ".
Definition sp16 : string := "                ".
Definition sp20 : string := "                    ".

(** The class name of a delete control. *)
Definition delete_btn_class : string := "todo_delete-btn".

(** [getInputValue()] *)
Definition getInputValue (p : Page) : string := inputEl_value p.

(** [clearInput()] *)
Definition clearInput (p : Page) : Page :=
  {| inputEl_value := ""; todolistEl_innerHTML := todolistEl_innerHTML p |}.

(** The template literal [todoItemTemp], line by line. *)
Definition todoItemTemp (todo : Item) : string :=
  nl +:+ sp16 +:+ "<div id=" +:+ id todo +:+ ">" +:+
  nl +:+ sp20 +:+ content todo +:+
  nl +:+ sp20 +:+ "<button class=" +:+ dquote +:+ delete_btn_class +:+ dquote
     +:+ ">delete</button>" +:+
  nl +:+ sp16 +:+ "</div>" +:+
  nl +:+ sp12.

(** [renderTodos(todos)]: [forEach] appends one template to [todosTemp]
    per item, and the result is assigned to [innerHTML]. *)
Definition renderTodos (todos : list Item) (p : Page) : Page :=
  let todosTemp :=
    fold_left (fun acc todo => acc +:+ todoItemTemp todo) todos "" in
  {| inputEl_value := inputEl_value p; todolistEl_innerHTML := todosTemp |}.

(** The children of the list container, as the parser builds them from
    the markup it was assigned. *)
Definition childNodes (p : Page) : option (list DOM.node) :=
  DOM.parse (todolistEl_innerHTML p).

End View.

(** ** The Controller object *)
Module Controller.
Import View.

(** The then-callbacks of the script, by the promise they wait for:
    - [ThenInit]: [(data) => { state.todos = data; }] of [init];
    - [ThenCreate]: [(data) => { state.todos = [...state.todos, data];
      view.clearInput(); }] of the add listener;
    - [ThenDelete]: [() => model.getTodos()] of the list listener;
    - [ThenRefetch]: [(data) => { state.todos = data; }] after it. *)
Inductive kont := ThenInit | ThenCreate | ThenDelete | ThenRefetch.

(** The application: the container, the page, the promises that are not
    settled yet (by request number, with the call each one belongs to),
    the requests sent so far, the rejections nobody handled, and which
    listeners are attached. *)
Record App := {
  state : Model.state Page;
  page : Page;
  pending : gmap nat (APIs.call * kont);
  next : nat;
  sent : list APIs.request;
  unhandled : list error;
  addBtnEl_listener : bool;
  todolistEl_listener : bool
}.

(** The target of a click in the list container: its class name and the
    [id] attribute of its parent element. *)
Record element := { className : string; parent_id : option string }.

(** What happens to the page: the user edits the input field, clicks the
    add button, clicks somewhere in the list container, or the transport
    of a request has an outcome. *)
Inductive event :=
| Input (v : string)
| ClickAdd
| ClickList (target : element)
| Settle (rid : nat) (t : APIs.transport).

Definition with_state (a : App) (s : Model.state Page) (p : Page) : App :=
  {| state := s; page := p; pending := pending a; next := next a;
     sent := sent a; unhandled := unhandled a;
     addBtnEl_listener := addBtnEl_listener a;
     todolistEl_listener := todolistEl_listener a |}.

Definition reject (e : error) (a : App) : App :=
  {| state := state a; page := page a; pending := pending a;
     next := next a; sent := sent a; unhandled := unhandled a ++ [e];
     addBtnEl_listener := addBtnEl_listener a;
     todolistEl_listener := todolistEl_listener a |}.

(** Calling an API function: the request goes out and the promise waits
    with its then-callback. *)
Definition issue (c : APIs.call) (k : kont) (a : App) : App :=
  {| state := state a; page := page a;
     pending := <[next a := (c, k)]> (pending a);
     next := S (next a);
     sent := sent a ++ [APIs.req c];
     unhandled := unhandled a;
     addBtnEl_listener := addBtnEl_listener a;
     todolistEl_listener := todolistEl_listener a |}.

Definition forget (rid : nat) (a : App) : App :=
  {| state := state a; page := page a;
     pending := delete rid (pending a);
     next := next a; sent := sent a; unhandled := unhandled a;
     addBtnEl_listener := addBtnEl_listener a;
     todolistEl_listener := todolistEl_listener a |}.

(** The callback [init] subscribes:
    [() => { view.renderTodos(state.todos); }] *)
Definition render : Model.callback Page :=
  fun todos p => renderTodos todos p.

(** [state.todos = newTodos] inside a then-callback; what the setter
    throws is returned. *)
Definition assign (newTodos : list Item) (a : App) : App * option error :=
  match Model.set_todos newTodos (state a) (page a) with
  | (s, p, thrown) => (with_state a s p, thrown)
  end.

(** The then-callbacks.  A callback that throws rejects its promise, and
    no chain of the script has a handler.  [None]: the body has not the
    shape the endpoint answers with (a list to a GET, an item to a POST).
    The script checks nothing there: it assigns what it got, and the
    render callback throws on what is not a list of items, or shows an
    item that is none.  The collection of this model holds items only, so
    these runs are outside of it; what is proved of a run is proved of
    the runs in which every answer has the shape of its call. *)
Definition then_cb (k : kont) (data : value) (a : App) : option App :=
  match k, data with
  | ThenInit, VItems l | ThenRefetch, VItems l =>
      match assign l a with
      | (a1, Some e) => Some (reject e a1)
      | (a1, None) => Some a1
      end
  | ThenCreate, VItem t =>
      match assign (Model.get_todos (state a) ++ [t]) a with
      | (a1, Some e) => Some (reject e a1)
      | (a1, None) =>
          Some (with_state a1 (state a1) (clearInput (page a1)))
      end
  | ThenDelete, _ => Some (issue APIs.getTodos ThenRefetch a)
  | _, _ => None
  end.

(** The click listener of the add button. *)
Definition on_add_click (a : App) : App :=
  let inputValue := getInputValue (page a) in
  let newTodo := {| APIs.nt_content := inputValue |} in
  issue (APIs.createTodo newTodo) ThenCreate a.

(** The click listener of the list container. *)
Definition on_list_click (element : element) (a : App) : App :=
  if String.eqb (className element) delete_btn_class then
    let id := parent_id element in
    issue (APIs.deleteTodo id) ThenDelete a
  else a.

(** One event.  [None]: the event cannot happen (no such promise is
    pending) or leaves the model (see [then_cb]). *)
Definition step (a : App) (e : event) : option App :=
  match e with
  | Input v =>
      Some (with_state a (state a)
              {| inputEl_value := v;
                 todolistEl_innerHTML := todolistEl_innerHTML (page a) |})
  | ClickAdd =>
      Some (if addBtnEl_listener a then on_add_click a else a)
  | ClickList target =>
      Some (if todolistEl_listener a then on_list_click target a else a)
  | Settle rid t =>
      match pending a !! rid with
      | None => None
      | Some (c, k) =>
          match APIs.settle c t with
          | Rejected e => Some (reject e (forget rid a))
          | Fulfilled data => then_cb k data (forget rid a)
          end
      end
  end.

Fixpoint run (a : App) (es : list event) : option App :=
  match es with
  | [] => Some a
  | e :: es' =>
      match step a e with
      | Some a1 => run a1 es'
      | None => None
      end
  end.

(** The body of the Controller function before it returns [init]: the
    container is created and the list listener attached. *)
Definition construct (p : Page) : App :=
  {| state := Model.new_state; page := p; pending := ∅; next := 0;
     sent := []; unhandled := [];
     addBtnEl_listener := false; todolistEl_listener := true |}.

(** [setUpAddHandler()] *)
Definition setUpAddHandler (a : App) : App :=
  {| state := state a; page := page a; pending := pending a;
     next := next a; sent := sent a; unhandled := unhandled a;
     addBtnEl_listener := true;
     todolistEl_listener := todolistEl_listener a |}.

(** [init()] *)
Definition init (a : App) : App :=
  let a1 := with_state a (Model.subscribe render (state a)) (page a) in
  let a2 := issue APIs.getTodos ThenInit a1 in
  setUpAddHandler a2.

(** The script, run to its end on a page: [Controller.init()]. *)
Definition boot (p : Page) : App := init (construct p).

Definition subscribed (a : App) : Prop :=
  Model.onChange (state a) = Some render.

End Controller.

(** * Properties *)

(** ** The state container *)
Section container.
Context {W : Type}.
Implicit Types (s : Model.state W) (cb f g : Model.callback W) (w : W).

Lemma set_todos_subscribed cb l s w :
  Model.onChange s = Some cb ->
  Model.set_todos l s w
  = ({| Model.todos := l; Model.onChange := Some cb |}, cb l w, None).
Proof. intros H. unfold Model.set_todos. simpl. now rewrite H. Qed.

Lemma set_todos_keeps_onChange l s w :
  Model.onChange (Model.set_todos l s w).1.1 = Model.onChange s.
Proof. unfold Model.set_todos. simpl. now destruct (Model.onChange s). Qed.

Lemma set_todos_writes l s w :
  Model.get_todos (Model.set_todos l s w).1.1 = l.
Proof. unfold Model.set_todos. simpl. now destruct (Model.onChange s). Qed.

End container.

(** A callback that appends what it reads of the container to a log. *)
Definition recorder : Model.callback (list (list Item)) :=
  fun l log => (log ++ [l])%list.

(** A callback that leaves its mark in a log. *)
Definition marker (m : string) : Model.callback (list string) :=
  fun _ log => (log ++ [m])%list.

Lemma fold_recorder (ls log : list (list Item)) :
  fold_left (fun w l => recorder l w) ls log = (log ++ ls)%list.
Proof.
  revert log. induction ls as [|l ls IH]; intros log; simpl.
  - now rewrite app_nil_r.
  - rewrite IH. unfold recorder. now rewrite <- app_assoc.
Qed.

Lemma last_nonempty {A} (x : A) (xs : list A) (d1 d2 : A) :
  List.last (x :: xs) d1 = List.last (x :: xs) d2.
Proof.
  revert x. induction xs as [|y ys IH]; intros x; [reflexivity|].
  change (List.last (y :: ys) d1 = List.last (y :: ys) d2). apply IH.
Qed.

(** C10: a container that was just constructed reads as the empty list,
    for any kind of callback it may get later, and so does the container
    of the application when the script has run to its end, before the
    first fetch has an answer. *)
Theorem fresh_state_is_empty :
  (forall W : Type, Model.get_todos (@Model.new_state W) = []) /\
  (forall p, Model.get_todos (Controller.state (Controller.boot p)) = []).
Proof. split; reflexivity. Qed.

(** C1, as the claim has it, fails: on a fresh container, with nothing
    subscribed, the assignment throws a TypeError. *)
Lemma assignment_without_callback_throws :
  snd (Model.set_todos [{| id := "1"; content := "a" |}]
         (@Model.new_state unit) tt) = Some TypeError.
Proof. reflexivity. Qed.

(** C1, amended: with no callback registered, an assignment replaces the
    list, leaves the callback slot and the rest of the world as they are,
    and throws a TypeError: the call of the callback is not guarded. *)
Theorem set_todos_unsubscribed (W : Type) (s : Model.state W) l (w : W) :
  Model.onChange s = None ->
  Model.set_todos l s w
  = ({| Model.todos := l; Model.onChange := None |}, w, Some TypeError).
Proof. intros H. unfold Model.set_todos. simpl. now rewrite H. Qed.

Lemma set_todos_unsubscribed_witness :
  Model.set_todos [{| id := "1"; content := "a" |}] (@Model.new_state unit) tt
  = ({| Model.todos := [{| id := "1"; content := "a" |}];
        Model.onChange := None |}, tt, Some TypeError).
Proof. apply (set_todos_unsubscribed unit Model.new_state). reflexivity. Defined.

(** C3: on a container with a callback registered, a run of assignments
    never throws, ends with the last list assigned, and has called the
    callback once per assignment, in order, each time on a container that
    already reads as the list just assigned; a callback that records what
    it reads has recorded exactly the lists assigned. *)
Theorem callback_once_per_assignment (W : Type) (cb : Model.callback W)
    (s : Model.state W) (ls : list (list Item)) (w : W) :
  Model.onChange s = Some cb ->
  Model.assign_all ls s w
  = ({| Model.todos := List.last ls (Model.todos s); Model.onChange := Some cb |},
     fold_left (fun w l => cb l w) ls w, None)
  /\ forall s0 log,
      (Model.assign_all ls (Model.subscribe recorder s0) log).1.2
      = (log ++ ls)%list.
Proof.
  intros H. assert (G : forall (V : Type) (c : Model.callback V) ls s w,
    Model.onChange s = Some c ->
    Model.assign_all ls s w
    = ({| Model.todos := List.last ls (Model.todos s); Model.onChange := Some c |},
       fold_left (fun w l => c l w) ls w, None)).
  { clear. intros V c ls. induction ls as [|l ls IH]; intros s w H.
    - simpl. destruct s as [t o]. simpl in *. now subst.
    - cbn [Model.assign_all]. rewrite (set_todos_subscribed c) by exact H.
      rewrite IH by reflexivity. simpl. do 3 f_equal.
      destruct ls as [|l0 ls]; [reflexivity|]. apply last_nonempty. }
  split; [now apply G|].
  intros s0 log. rewrite (G _ recorder) by reflexivity.
  simpl. apply fold_recorder.
Qed.

Lemma callback_once_per_assignment_witness :
  let a := {| id := "1"; content := "a" |} in
  let b := {| id := "2"; content := "b" |} in
  Model.assign_all [[a]; [a; b]; []] (Model.subscribe recorder Model.new_state) []
  = ({| Model.todos := []; Model.onChange := Some recorder |},
     [[a]; [a; b]; []], None).
Proof.
  intros a b.
  apply (proj1 (callback_once_per_assignment _ recorder
                  (Model.subscribe recorder Model.new_state)
                  [[a]; [a; b]; []] [] eq_refl)).
Defined.

(** C7: after [subscribe(f)] then [subscribe(g)] the container holds the
    one callback [g]: an assignment calls [g], once, on the list assigned,
    and its effect does not depend on [f]; with callbacks that leave a
    mark, the mark of [g] is the only one left. *)
Theorem subscribe_replaces (W : Type) (f g : Model.callback W)
    (s : Model.state W) l (w : W) :
  Model.set_todos l (Model.subscribe g (Model.subscribe f s)) w
  = ({| Model.todos := l; Model.onChange := Some g |}, g l w, None)
  /\ forall s0 log,
      (Model.set_todos l
         (Model.subscribe (marker "g") (Model.subscribe (marker "f") s0))
         log).1.2
      = (log ++ ["g"])%list.
Proof. split; reflexivity. Qed.

(** ** The remote calls *)

(** How the promise of a call settles, in terms of the transport alone:
    fulfilled exactly when a response came whose body is JSON, with the
    parsed body; rejected with a NetworkError exactly when the transport
    failed and with a ParseError exactly when the body is not JSON.  The
    status of the response plays no part. *)
Definition settles_by_body (c : APIs.call) : Prop :=
  forall t : APIs.transport,
    (forall v, APIs.settle c t = Fulfilled v <->
               exists res, t = APIs.Responded res /\ APIs.json_body res = Some v)
    /\ (forall e, APIs.settle c t = Rejected e <->
               (t = APIs.Failed /\ e = NetworkError) \/
               (exists res, t = APIs.Responded res /\
                            APIs.json_body res = None /\ e = ParseError)).

Lemma fetch_then_json_by_body (r : APIs.request) :
  settles_by_body {| APIs.req := r; APIs.settle := APIs.fetch_then_json |}.
Proof.
  intros t. simpl. split.
  - intros v. destruct t as [|res]; simpl.
    + split; [discriminate|]. intros (res & H & _). discriminate.
    + unfold APIs.res_json. destruct (APIs.json_body res) as [v0|] eqn:E.
      * split.
        -- intros [= ->]. now exists res.
        -- intros (res' & [= <-] & H). rewrite E in H. now injection H as ->.
      * split; [discriminate|].
        intros (res' & [= <-] & H). rewrite E in H. discriminate.
  - intros e. destruct t as [|res]; simpl.
    + split.
      * intros [= <-]. now left.
      * intros [[_ ->]|(res & H & _)]; [reflexivity|discriminate].
    + unfold APIs.res_json. destruct (APIs.json_body res) as [v0|] eqn:E.
      * split; [discriminate|].
        intros [[H _]|(res' & [= <-] & H & _)]; [discriminate|].
        rewrite E in H. discriminate.
      * split.
        -- intros [= <-]. right. now exists res.
        -- intros [[H _]|(res' & _ & _ & ->)]; [discriminate|reflexivity].
Qed.

(** The answer of the server to a DELETE of an item it does not have. *)
Definition not_found : APIs.response :=
  {| APIs.status := 404; APIs.json_body := Some (VOther (JObj [])) |}.

(** C2, as the claim has it, fails: a response of status 404 whose body is
    JSON fulfils the promise of [deleteTodo]. *)
Lemma not_found_resolves :
  APIs.ok not_found = false /\
  APIs.settle (APIs.deleteTodo (Some "42")) (APIs.Responded not_found)
  = Fulfilled (VOther (JObj [])).
Proof. split; reflexivity. Qed.

(** C2, amended: the promise of each of the three calls is fulfilled with
    the parsed body whenever a response arrives whose body is JSON,
    whatever its status, and is rejected otherwise: with a NetworkError
    when the transport failed, with a ParseError when the body is not
    JSON.  No call looks at the status. *)
Theorem calls_settle_by_body :
  settles_by_body APIs.getTodos /\
  (forall n, settles_by_body (APIs.createTodo n)) /\
  (forall i, settles_by_body (APIs.deleteTodo i)).
Proof. split; [|split; intros ?]; apply fetch_then_json_by_body. Qed.

(** ** The flows of the controller *)
Section flows.
Import Controller.

Lemma assign_subscribed a l :
  subscribed a ->
  assign l a
  = (with_state a {| Model.todos := l; Model.onChange := Some render |}
       (View.renderTodos l (page a)), None).
Proof.
  intros H. unfold assign.
  now rewrite (set_todos_subscribed render) by exact H.
Qed.

Lemma assign_frame a l a' thrown :
  assign l a = (a', thrown) ->
  Model.onChange (state a') = Model.onChange (state a)
  /\ pending a' = pending a /\ next a' = next a
  /\ addBtnEl_listener a' = addBtnEl_listener a
  /\ todolistEl_listener a' = todolistEl_listener a.
Proof.
  unfold assign. intros H.
  pose proof (set_todos_keeps_onChange l (state a) (page a)) as K.
  destruct (Model.set_todos l (state a) (page a)) as [[s p] th].
  injection H as <- _. simpl in *. auto.
Qed.

(** Does the event settle the promise of request [rid]? *)
Definition settles (rid : nat) (e : event) : bool :=
  match e with
  | Settle r _ => Nat.eqb r rid
  | _ => false
  end.

Definition leaves_pending (rid : nat) (es : list event) : bool :=
  forallb (fun e => negb (settles rid e)) es.

(** What one event leaves as it is: the callback and the listeners, and
    every promise that is pending and is not the one settled. *)
Lemma step_frame a e a' :
  step a e = Some a' ->
  Model.onChange (state a') = Model.onChange (state a)
  /\ addBtnEl_listener a' = addBtnEl_listener a
  /\ todolistEl_listener a' = todolistEl_listener a
  /\ next a <= next a'
  /\ forall rid, rid < next a -> settles rid e = false ->
       pending a' !! rid = pending a !! rid.
Proof.
  intros H. destruct e as [v| |target|r t]; simpl in H.
  - injection H as <-. simpl. repeat split; auto.
  - injection H as <-.
    destruct (addBtnEl_listener a) eqn:E; [|repeat split; auto].
    simpl. repeat split; auto. intros. apply lookup_insert_ne. lia.
  - injection H as <-.
    destruct (todolistEl_listener a) eqn:E; [|repeat split; auto].
    unfold on_list_click. destruct (String.eqb _ _); [|repeat split; auto].
    simpl. repeat split; auto. intros. apply lookup_insert_ne. lia.
  - destruct (pending a !! r) as [[c k]|] eqn:E; [|discriminate].
    assert (D : forall rid, settles rid (Settle r t) = false ->
                  delete r (pending a) !! rid = pending a !! rid).
    { intros rid Hs. simpl in Hs. apply Nat.eqb_neq in Hs.
      apply lookup_delete_ne. lia. }
    destruct (APIs.settle c t) as [data|err].
    + destruct k, data; simpl in H; try discriminate;
        try (injection H as <-; simpl; repeat split; auto; intros;
             rewrite lookup_insert_ne by lia; now apply D).
      all: destruct (assign _ (forget r a)) as [a1 [e1|]] eqn:A;
          apply assign_frame in A; destruct A as (A1 & A2 & A3 & A4 & A5);
          injection H as <-; simpl in *; rewrite ?A1, ?A2, ?A3, ?A4, ?A5;
          repeat split; auto; intros; now apply D.
    + injection H as <-. simpl. repeat split; auto.
Qed.

Lemma run_frame es : forall a a',
  run a es = Some a' ->
  Model.onChange (state a') = Model.onChange (state a)
  /\ addBtnEl_listener a' = addBtnEl_listener a
  /\ todolistEl_listener a' = todolistEl_listener a
  /\ next a <= next a'
  /\ forall rid, rid < next a -> leaves_pending rid es = true ->
       pending a' !! rid = pending a !! rid.
Proof.
  induction es as [|e es IH]; intros a a' H; simpl in H.
  - injection H as <-. auto.
  - destruct (step a e) as [a1|] eqn:E; [|discriminate].
    destruct (step_frame _ _ _ E) as (F1 & F2 & F3 & F4 & F5).
    destruct (IH _ _ H) as (G1 & G2 & G3 & G4 & G5).
    rewrite G1, G2, G3. repeat split; auto; [lia|].
    intros rid Hlt Hs. simpl in Hs. apply andb_prop in Hs as [Hs1 Hs2].
    apply negb_true_iff in Hs1.
    rewrite G5 by (auto; lia). auto.
Qed.

(** The callback is the one [init] subscribed, in every state the
    application reaches. *)
Lemma boot_subscribed p : subscribed (boot p).
Proof. reflexivity. Qed.

Lemma run_subscribed es a a' :
  run a es = Some a' -> subscribed a -> subscribed a'.
Proof.
  intros H S. unfold subscribed in *.
  destruct (run_frame _ _ _ H) as (F1 & _). now rewrite F1.
Qed.


(** C5: a click on a delete control whose parent element has the
    identifier [i] sends a DELETE for [i]; when its promise is fulfilled
    a GET of the list is sent; when the promise of that GET is fulfilled
    with a list, the collection is that list, whatever it was before,
    and the list is rendered from it. *)
Theorem delete_flow a target i es1 a1 res1 v es2 a2 res2 L2 :
  subscribed a ->
  todolistEl_listener a = true ->
  className target = View.delete_btn_class ->
  parent_id target = Some i ->
  run a (ClickList target :: es1) = Some a1 ->
  leaves_pending (next a) es1 = true ->
  APIs.json_body res1 = Some v ->
  run a1 (Settle (next a) (APIs.Responded res1) :: es2) = Some a2 ->
  leaves_pending (next a1) es2 = true ->
  APIs.json_body res2 = Some (VItems L2) ->
  (exists a0,
      step a (ClickList target) = Some a0 /\
      sent a0 = (sent a ++
        [{| APIs.url := APIs.baseURL +:+ "/" +:+ i;
            APIs.meth := APIs.DELETE;
            APIs.content_type_json := true; APIs.body := None |}])%list)
  /\ (exists a1',
      step a1 (Settle (next a) (APIs.Responded res1)) = Some a1' /\
      Model.get_todos (state a1') = Model.get_todos (state a1) /\
      sent a1' = (sent a1 ++
        [{| APIs.url := APIs.baseURL; APIs.meth := APIs.GET;
            APIs.content_type_json := false; APIs.body := None |}])%list)
  /\ exists a3,
      step a2 (Settle (next a1) (APIs.Responded res2)) = Some a3 /\
      Model.get_todos (state a3) = L2 /\
      View.todolistEl_innerHTML (page a3)
      = View.todolistEl_innerHTML (View.renderTodos L2 (page a2)) /\
      sent a3 = sent a2.
Proof.
  intros S L C I R1 P1 B1 R2 P2 B2.
  assert (E0 : step a (ClickList target)
               = Some (issue (APIs.deleteTodo (Some i)) ThenDelete a)).
  { simpl. rewrite L. unfold on_list_click. rewrite C, I.
    now rewrite String.eqb_refl. }
  cbn [run] in R1. rewrite E0 in R1.
  destruct (run_frame _ _ _ R1) as (F1 & _ & _ & _ & F5).
  assert (E1 : step a1 (Settle (next a) (APIs.Responded res1))
               = Some (issue APIs.getTodos ThenRefetch (forget (next a) a1))).
  { simpl. rewrite F5 by (simpl; auto). simpl. rewrite lookup_insert_eq.
    simpl. unfold APIs.res_json. rewrite B1. reflexivity. }
  cbn [run] in R2. rewrite E1 in R2.
  destruct (run_frame _ _ _ R2) as (G1 & _ & _ & _ & G5).
  assert (S2 : subscribed a2).
  { unfold subscribed. rewrite G1. simpl. now rewrite F1. }
  split; [|split].
  - eexists. split; [exact E0|reflexivity].
  - eexists. split; [exact E1|]. simpl. auto.
  - simpl. rewrite G5 by (simpl; auto). simpl. rewrite lookup_insert_eq.
    simpl. unfold APIs.res_json. rewrite B2. simpl.
    rewrite assign_subscribed by exact S2.
    eexists. split; [reflexivity|]. simpl. auto.
Qed.

(** C8: a click in the list container on an element whose class name is
    not the one of the delete controls leaves the application as it is:
    no request is sent, no promise created, the collection and the page
    are untouched. *)
Theorem other_click_is_ignored a target :
  className target <> View.delete_btn_class ->
  step a (ClickList target) = Some a.
Proof.
  intros H. simpl. apply String.eqb_neq in H.
  unfold on_list_click. rewrite H. now destruct (todolistEl_listener a).
Qed.

(** C9, amended: the promise of [deleteTodo] is fulfilled with whatever
    JSON the server answers, and the flow that waits for it goes on in the
    same way for any two such answers: it drops the body and sends the GET
    of the list. *)
Theorem confirmation_is_discarded a rid i res1 res2 v1 v2 :
  pending a !! rid = Some (APIs.deleteTodo i, ThenDelete) ->
  APIs.json_body res1 = Some v1 ->
  APIs.json_body res2 = Some v2 ->
  APIs.settle (APIs.deleteTodo i) (APIs.Responded res1) = Fulfilled v1
  /\ step a (Settle rid (APIs.Responded res1))
     = Some (issue APIs.getTodos ThenRefetch (forget rid a))
  /\ step a (Settle rid (APIs.Responded res1))
     = step a (Settle rid (APIs.Responded res2)).
Proof.
  intros P B1 B2. simpl. rewrite P. simpl. unfold APIs.res_json.
  rewrite B1, B2. auto.
Qed.

(** *** The flows on a concrete page *)

Definition milk : Item := {| id := "42"; content := "Buy milk" |}.
Definition eggs : Item := {| id := "7"; content := "Eggs" |}.

Definition page0 : View.Page :=
  {| View.inputEl_value := "Buy milk"; View.todolistEl_innerHTML := "" |}.

Definition answer (st : Z) (v : value) : APIs.transport :=
  APIs.Responded {| APIs.status := st; APIs.json_body := Some v |}.

(** The state after a run, or the start when the run is not possible. *)
Definition after (a : App) (es : list event) : App :=
  match run a es with
  | Some a' => a'
  | None => a
  end.


Definition delete_btn_of (i : string) : element :=
  {| className := View.delete_btn_class; parent_id := Some i |}.

(** Two items are shown; the first one is deleted, and the list the
    server then answers with has an item the page never had. *)
Lemma delete_flow_witness :
  let a := after (boot page0) [Settle 0 (answer 200 (VItems [milk; eggs]))] in
  let tea := {| id := "8"; content := "Tea" |} in
  let a1 := after a [ClickList (delete_btn_of "42"); Input "x"] in
  let a2 := after a1 [Settle 1 (answer 200 (VOther (JObj []))); ClickAdd] in
  (exists a0,
      step a (ClickList (delete_btn_of "42")) = Some a0 /\
      sent a0 = (sent a ++
        [{| APIs.url := APIs.baseURL +:+ "/" +:+ "42";
            APIs.meth := APIs.DELETE;
            APIs.content_type_json := true; APIs.body := None |}])%list)
  /\ (exists a1',
      step a1 (Settle 1 (answer 200 (VOther (JObj [])))) = Some a1' /\
      Model.get_todos (state a1') = Model.get_todos (state a1) /\
      sent a1' = (sent a1 ++
        [{| APIs.url := APIs.baseURL; APIs.meth := APIs.GET;
            APIs.content_type_json := false; APIs.body := None |}])%list)
  /\ exists a3,
      step a2 (Settle 2 (answer 200 (VItems [eggs; tea]))) = Some a3 /\
      Model.get_todos (state a3) = [eggs; tea] /\
      View.todolistEl_innerHTML (page a3)
      = View.todolistEl_innerHTML (View.renderTodos [eggs; tea] (page a2)) /\
      sent a3 = sent a2.
Proof.
  intros a tea a1 a2.
  apply (delete_flow a (delete_btn_of "42") "42" [Input "x"] a1
           {| APIs.status := 200; APIs.json_body := Some (VOther (JObj [])) |}
           (VOther (JObj [])) [ClickAdd] a2
           {| APIs.status := 200; APIs.json_body := Some (VItems [eggs; tea]) |}
           [eggs; tea]);
    reflexivity.
Defined.

Lemma other_click_is_ignored_witness :
  let a := after (boot page0) [Settle 0 (answer 200 (VItems [milk]))] in
  step a (ClickList {| className := ""; parent_id := Some "42" |}) = Some a.
Proof.
  intros a. apply (other_click_is_ignored a). discriminate.
Defined.

Lemma confirmation_is_discarded_witness :
  let a := after (boot page0)
             [Settle 0 (answer 200 (VItems [milk]));
              ClickList (delete_btn_of "42")] in
  let r1 := {| APIs.status := 200; APIs.json_body := Some (VOther (JObj [])) |} in
  let r2 := {| APIs.status := 200; APIs.json_body := Some (VItem milk) |} in
  APIs.settle (APIs.deleteTodo (Some "42")) (APIs.Responded r1)
  = Fulfilled (VOther (JObj []))
  /\ step a (Settle 1 (APIs.Responded r1))
     = Some (issue APIs.getTodos ThenRefetch (forget 1 a))
  /\ step a (Settle 1 (APIs.Responded r1))
     = step a (Settle 1 (APIs.Responded r2)).
Proof.
  intros a r1 r2.
  apply (confirmation_is_discarded a 1 (Some "42") r1 r2
           (VOther (JObj [])) (VItem milk)); reflexivity.
Defined.

(** C9, as the claim has it, fails: a confirmation without a body, as a
    204 has none, is no JSON; the promise of [deleteTodo] is rejected, the
    error stays unhandled and the list is not fetched again. *)
Lemma empty_confirmation_rejects :
  let a := after (boot page0)
             [Settle 0 (answer 200 (VItems [milk]));
              ClickList (delete_btn_of "42")] in
  let no_content := {| APIs.status := 204; APIs.json_body := None |} in
  APIs.ok no_content = true
  /\ APIs.settle (APIs.deleteTodo (Some "42")) (APIs.Responded no_content)
     = Rejected ParseError
  /\ step a (Settle 1 (APIs.Responded no_content))
     = Some (reject ParseError (forget 1 a))
  /\ sent (reject ParseError (forget 1 a)) = sent a
  /\ Model.get_todos (state (reject ParseError (forget 1 a))) = [milk].
Proof. vm_compute. repeat split; reflexivity. Qed.

End flows.

(** ** What the list container shows

    The markup [renderTodos] writes is read back through the parser: a
    list of items whose identifiers and contents hold nothing the parser
    takes for markup comes out as one block per item. *)
Section rendering.
Import DOM.

(** Text the parser reads as text: no [<], and nothing it does not read. *)

Fixpoint all_chars (f : ascii -> bool) (s : string) : bool :=
  match s with
  | EmptyString => true
  | String c s' => f c && all_chars f s'
  end.

Definition text_char (c : ascii) : bool :=
  negb (unread c) && negb (Ascii.eqb c lt_sign).
Definition value_char (c : ascii) : bool :=
  negb (unread c) && negb (is_ws c) && negb (Ascii.eqb c gt_sign).
Definition plain_text (s : string) : bool := all_chars text_char s.
(** A value the parser reads whole after [id=]: no blank, no [>], no
    quote in front, and nothing it does not read. *)
Definition plain_value (s : string) : bool :=
  all_chars value_char s &&
  match s with
  | String c _ => negb (Ascii.eqb c dq) && negb (Ascii.eqb c sq)
  | EmptyString => true
  end.

(** The character tokens of a string. *)
Definition chars (s : string) : list token := map TChar (list_ascii_of_string s).

Definition prepend (o : list token) (r : option (tstate * list token)) :=
  match r with
  | Some (st, ts) => Some (st, (o ++ ts)%list)
  | None => None
  end.

Lemma append_cons c s1 s2 : String c s1 +:+ s2 = String c (s1 +:+ s2).
Proof. reflexivity. Qed.

Lemma append_nil_l s : EmptyString +:+ s = s.
Proof. reflexivity. Qed.

Lemma append_assoc s1 s2 s3 : (s1 +:+ s2) +:+ s3 = s1 +:+ (s2 +:+ s3).
Proof.
  induction s1 as [|c s1 IH]; [reflexivity|].
  rewrite !append_cons. now rewrite IH.
Qed.

Lemma chars_app s1 s2 : chars (s1 +:+ s2) = (chars s1 ++ chars s2)%list.
Proof.
  induction s1 as [|c s1 IH]; [reflexivity|].
  rewrite append_cons. unfold chars in *. simpl. now rewrite IH.
Qed.

Lemma prepend_prepend o1 o2 r :
  prepend o1 (prepend o2 r) = prepend (o1 ++ o2) r.
Proof. destruct r as [[st ts]|]; simpl; [|reflexivity]. now rewrite app_assoc. Qed.

Lemma tok_run_seq s1 : forall st st1 o1 s2,
  tok_run st s1 = Some (st1, o1) ->
  tok_run st (s1 +:+ s2) = prepend o1 (tok_run st1 s2).
Proof.
  induction s1 as [|c s1 IH]; intros st st1 o1 s2 H.
  - injection H as <- <-. rewrite append_nil_l.
    now destruct (tok_run st s2) as [[? ?]|].
  - rewrite append_cons. cbn [tok_run] in *.
    destruct (tok_step st c) as [[st' out]|]; [|discriminate].
    destruct (tok_run st' s1) as [[st2 rest]|] eqn:E; [|discriminate].
    injection H as <- <-. rewrite (IH _ _ _ s2 E).
    destruct (tok_run st2 s2) as [[? ?]|]; simpl; [|reflexivity].
    now rewrite app_assoc.
Qed.

Lemma tok_run_text s : plain_text s = true -> tok_run Data s = Some (Data, chars s).
Proof.
  induction s as [|c s IH]; intros H; [reflexivity|].
  cbn [plain_text all_chars] in H. apply andb_prop in H as [Hc Hs].
  apply andb_prop in Hc as [Hu Hl].
  apply negb_true_iff in Hu, Hl.
  cbn [tok_run]. unfold tok_step, data_step. rewrite Hu, Hl.
  rewrite (IH Hs). reflexivity.
Qed.

Lemma tok_run_unquoted t an s : forall av,
  all_chars value_char s = true ->
  tok_run (AttrValueUnq t an av) (s +:+ ">")
  = Some (Data, emit (add_attr an (av +:+ s) t)).
Proof.
  induction s as [|c s IH]; intros av H.
  - assert (E : av +:+ "" = av).
    { clear. induction av as [|c av IH]; [reflexivity|].
      rewrite append_cons. now rewrite IH. }
    rewrite E, append_nil_l. cbn [tok_run]. unfold tok_step. simpl.
    now rewrite app_nil_r.
  - cbn [all_chars] in H. apply andb_prop in H as [Hc Hs].
    unfold value_char in Hc.
    apply andb_prop in Hc as [Hc Hg]. apply andb_prop in Hc as [Hu Hw].
    apply negb_true_iff in Hu, Hw, Hg.
    rewrite append_cons. cbn [tok_run]. unfold tok_step. rewrite Hu, Hw, Hg.
    rewrite (IH _ Hs). unfold snoc. rewrite append_assoc. reflexivity.
Qed.

Lemma tok_run_value t an v :
  plain_value v = true ->
  tok_run (BeforeAttrValue t an) (v +:+ ">")
  = Some (Data, emit (add_attr an v t)).
Proof.
  intros H. unfold plain_value in H. apply andb_prop in H as [Ha Hq].
  destruct v as [|c v].
  - rewrite append_nil_l. cbn [tok_run]. unfold tok_step. simpl.
    now rewrite app_nil_r.
  - apply andb_prop in Hq as [Hd Hs]. apply negb_true_iff in Hd, Hs.
    pose proof Ha as Ha'. cbn [all_chars] in Ha. apply andb_prop in Ha as [Hc Hv].
    unfold value_char in Hc.
    apply andb_prop in Hc as [Hc Hg]. apply andb_prop in Hc as [Hu Hw].
    apply negb_true_iff in Hu, Hw, Hg.
    rewrite append_cons. cbn [tok_run]. unfold tok_step.
    rewrite Hu, Hw, Hd, Hs, Hg.
    rewrite (tok_run_unquoted t an v _ Hv). reflexivity.
Qed.


(** The template, cut at the two places it interpolates. *)
Definition head_markup : string := View.nl +:+ View.sp16 +:+ "<div id=".
Definition mid_markup : string := View.nl +:+ View.sp20.
Definition tail_markup : string :=
  View.nl +:+ View.sp20 +:+ "<button class=" +:+ View.dquote
  +:+ View.delete_btn_class +:+ View.dquote +:+ ">delete</button>"
  +:+ View.nl +:+ View.sp16 +:+ "</div>" +:+ View.nl +:+ View.sp12.

Lemma todoItemTemp_split t :
  View.todoItemTemp t
  = head_markup +:+ (id t +:+ ">") +:+ mid_markup +:+ content t +:+ tail_markup.
Proof.
  unfold View.todoItemTemp, head_markup, mid_markup, tail_markup.
  now rewrite !append_assoc.
Qed.

Definition div_open : tag :=
  {| closing := false; tname := "div"; tattrs := [] |}.

Definition delete_button : list (string * string) :=
  [("class", View.delete_btn_class)].

Definition tail_tokens : list token :=
  (chars (View.nl +:+ View.sp20)
   ++ [TStart "button" delete_button]
   ++ chars "delete"
   ++ [TEnd "button"]
   ++ chars (View.nl +:+ View.sp16)
   ++ [TEnd "div"]
   ++ chars (View.nl +:+ View.sp12))%list.

Definition block_tokens (t : Item) : list token :=
  (chars (View.nl +:+ View.sp16)
   ++ [TStart "div" [("id", id t)]]
   ++ chars (View.nl +:+ View.sp20)
   ++ chars (content t)
   ++ tail_tokens)%list.

Lemma tok_run_block t :
  plain_value (id t) = true -> plain_text (content t) = true ->
  tok_run Data (View.todoItemTemp t) = Some (Data, block_tokens t).
Proof.
  intros Hi Hc. rewrite todoItemTemp_split.
  rewrite (tok_run_seq head_markup Data (BeforeAttrValue div_open "id")
             (chars (View.nl +:+ View.sp16))) by reflexivity.
  rewrite (tok_run_seq _ _ _ _ _ (tok_run_value div_open "id" (id t) Hi)).
  rewrite (tok_run_seq mid_markup Data Data (chars mid_markup)) by reflexivity.
  rewrite (tok_run_seq _ _ _ _ _ (tok_run_text (content t) Hc)).
  change (tok_run Data tail_markup) with (Some (Data, tail_tokens)).
  reflexivity.
Qed.

Lemma fold_templates L : forall acc,
  fold_left (fun acc todo => acc +:+ View.todoItemTemp todo) L acc
  = acc +:+ fold_right (fun todo s => View.todoItemTemp todo +:+ s) "" L.
Proof.
  induction L as [|t L IH]; intros acc; simpl.
  - clear. induction acc as [|c acc IH]; [reflexivity|].
    rewrite append_cons. now rewrite <- IH.
  - rewrite IH. now rewrite append_assoc.
Qed.

Definition plain_item (t : Item) : bool :=
  plain_value (id t) && plain_text (content t).

Lemma tok_run_markup L :
  forallb plain_item L = true ->
  tok_run Data (fold_right (fun todo s => View.todoItemTemp todo +:+ s) "" L)
  = Some (Data, flat_map block_tokens L).
Proof.
  induction L as [|t L IH]; intros H; [reflexivity|].
  simpl in H. apply andb_prop in H as [Ht HL].
  apply andb_prop in Ht as [Hi Hc].
  cbn [fold_right flat_map].
  rewrite (tok_run_seq _ _ _ _ _ (tok_run_block t Hi Hc)).
  now rewrite (IH HL).
Qed.


(** The characters of a string inserted one by one. *)
Definition insert_chars (s : string) (ks : list node) : list node :=
  fold_left (fun ks c => insert_char c ks) (list_ascii_of_string s) ks.

Lemma build_app ts1 : forall b ts2,
  build b (ts1 ++ ts2)
  = match build b ts1 with
    | Some b1 => build b1 ts2
    | None => None
    end.
Proof.
  induction ts1 as [|t ts1 IH]; intros b ts2; [reflexivity|].
  simpl. destruct (tree_step b t); [apply IH|reflexivity].
Qed.

Lemma build_chars s : forall b,
  build b (chars s)
  = Some {| kids := insert_chars s (kids b); opened := opened b |}.
Proof.
  unfold chars, insert_chars.
  induction (list_ascii_of_string s) as [|c cs IH]; intros b; simpl.
  - now destruct b.
  - now rewrite IH.
Qed.

Lemma insert_chars_text s : forall d ks,
  insert_chars s (Text d :: ks) = Text (d +:+ s) :: ks.
Proof.
  unfold insert_chars. induction s as [|c s IH]; intros d ks; simpl.
  - f_equal. f_equal. clear. induction d as [|c d IH]; [reflexivity|].
    rewrite append_cons. now rewrite <- IH.
  - rewrite IH. unfold snoc. now rewrite append_assoc.
Qed.

Lemma elements_insert_chars s ks :
  List.filter is_element (insert_chars s ks) = List.filter is_element ks.
Proof.
  unfold insert_chars. revert ks.
  induction (list_ascii_of_string s) as [|c cs IH]; intros ks; [reflexivity|].
  simpl. rewrite IH. now destruct ks as [|[d|n a k] ks].
Qed.

(** The block the parser builds from the template of an item. *)
Definition block_of (t : Item) : node :=
  Element "div" [("id", id t)]
    [Text (View.nl +:+ View.sp20 +:+ content t +:+ View.nl +:+ View.sp20);
     Element "button" delete_button [Text "delete"];
     Text (View.nl +:+ View.sp16)].

(** The children of the container once the template of an item is read. *)
Definition after_block (t : Item) (ks : list node) : list node :=
  Text (View.nl +:+ View.sp12) :: block_of t
  :: insert_chars (View.nl +:+ View.sp16) ks.

Lemma build_block t b :
  button_open b = false ->
  build b (block_tokens t)
  = Some {| kids := after_block t (kids b); opened := opened b |}.
Proof.
  intros Hb. unfold block_tokens, tail_tokens.
  rewrite build_app, build_chars.
  rewrite (build_app [_]). cbn [build tree_step]. simpl String.eqb. cbn iota.
  rewrite build_app, build_chars. cbn [kids opened push].
  rewrite build_app, build_chars. cbn [kids opened].
  rewrite build_app, build_chars. cbn [kids opened].
  change (insert_chars (View.nl +:+ View.sp20) [])
    with [Text (View.nl +:+ View.sp20)].
  rewrite !insert_chars_text.
  rewrite (build_app [_]). cbn [build tree_step]. simpl String.eqb. cbn iota.
  unfold button_open at 1. cbn [opened existsb ftag]. simpl String.eqb.
  cbn [orb]. fold (button_open b). rewrite Hb.
  rewrite build_app, build_chars. cbn [kids opened push].
  rewrite (build_app [_]). cbn [build tree_step opened ftag].
  simpl String.eqb. cbn iota. cbn [kids opened fattrs ftag fbefore].
  rewrite build_app, build_chars. cbn [kids opened].
  rewrite (build_app [_]). cbn [build tree_step opened ftag].
  simpl String.eqb. cbn iota. cbn [kids opened fattrs ftag fbefore].
  rewrite build_chars. cbn [kids opened].
  unfold after_block, block_of. rewrite !append_assoc.
  reflexivity.
Qed.
Definition after_blocks (L : list Item) (ks : list node) : list node :=
  fold_left (fun ks t => after_block t ks) L ks.

Lemma build_blocks L : forall b,
  button_open b = false ->
  build b (flat_map block_tokens L)
  = Some {| kids := after_blocks L (kids b); opened := opened b |}.
Proof.
  induction L as [|t L IH]; intros b Hb; cbn [flat_map after_blocks fold_left].
  - now destruct b.
  - rewrite build_app, (build_block t b Hb). now rewrite IH.
Qed.

Lemma elements_rev_insert_chars s ks :
  List.filter is_element (rev (insert_chars s ks))
  = List.filter is_element (rev ks).
Proof.
  rewrite (List.filter_rev is_element (insert_chars s ks)).
  rewrite elements_insert_chars.
  symmetry. apply List.filter_rev.
Qed.

Lemma elements_rev_fold {A} (txt : node) (blk : A -> node)
    (ic : list node -> list node) (L : list A) :
  is_element txt = false ->
  (forall t, is_element (blk t) = true) ->
  (forall ks, List.filter is_element (rev (ic ks))
              = List.filter is_element (rev ks)) ->
  forall ks,
    List.filter is_element
      (rev (fold_left (fun ks t => txt :: blk t :: ic ks) L ks))
    = (List.filter is_element (rev ks) ++ map blk L)%list.
Proof.
  intros Ht Hb Hic.
  induction L as [|t L IH]; intros ks.
  - simpl. now rewrite List.app_nil_r.
  - cbn [fold_left map]. rewrite IH. cbn [rev].
    rewrite !List.filter_app. cbn [List.filter]. rewrite Ht, Hb, Hic.
    rewrite List.app_nil_r, <- List.app_assoc. reflexivity.
Qed.

Lemma children_after_blocks L ks :
  children (rev (after_blocks L ks))
  = (children (rev ks) ++ map block_of L)%list.
Proof.
  apply (elements_rev_fold (Text (View.nl +:+ View.sp12)) block_of
           (insert_chars (View.nl +:+ View.sp16)) L).
  - reflexivity.
  - intros t. reflexivity.
  - intros ks'. apply elements_rev_insert_chars.
Qed.

Lemma childNodes_renderTodos L p :
  forallb plain_item L = true ->
  exists ns, View.childNodes (View.renderTodos L p) = Some ns
             /\ children ns = map block_of L.
Proof.
  intros H. unfold View.childNodes, View.renderTodos.
  cbn [View.todolistEl_innerHTML].
  rewrite fold_templates, append_nil_l.
  unfold parse, tokenize. rewrite (tok_run_markup L H).
  rewrite (build_blocks L {| kids := []; opened := [] |} eq_refl).
  cbn [finish opened kids].
  exists (rev (after_blocks L [])). split; [reflexivity|].
  rewrite children_after_blocks. reflexivity.
Qed.

(** What the claim asks of the block of an item: it carries the
    identifier of the item, one of its text nodes holds the content, and
    it has one delete control. *)
Definition block_for (t : Item) (b : node) : Prop :=
  getAttribute "id" b = Some (id t)
  /\ (exists pre post, In (pre +:+ content t +:+ post) (texts b))
  /\ count_class View.delete_btn_class b = 1.

(** The container of the page holds the blocks of the items, in order and
    nothing else but text. *)
Definition rendered_as_blocks (L : list Item) (p : View.Page) : Prop :=
  exists ns, View.childNodes p = Some ns /\ Forall2 block_for L (children ns).

Lemma block_of_block_for t : block_for t (block_of t).
Proof.
  split; [reflexivity|]. split; [|reflexivity].
  exists (View.nl +:+ View.sp20), (View.nl +:+ View.sp20).
  left. unfold View.nl. now rewrite append_assoc.
Qed.

Lemma blocks_for L : Forall2 block_for L (map block_of L).
Proof.
  induction L as [|t L IH]; constructor; [apply block_of_block_for|exact IH].
Qed.

Definition empty_page : View.Page :=
  {| View.inputEl_value := ""; View.todolistEl_innerHTML := "" |}.

(** An item whose content closes its block and opens another one. *)
Definition split_item : Item :=
  {| id := "1"; content := "</div><div id=x>" |}.

(** C6, as the claim has it, fails: the one item [split_item] is rendered
    as two blocks, the second one under an identifier no item has. *)
Lemma markup_in_content_makes_two_blocks :
  exists b1 b2 ns,
    View.childNodes (View.renderTodos [split_item] empty_page) = Some ns
    /\ children ns = [b1; b2]
    /\ getAttribute "id" b2 = Some "x"
    /\ length [split_item] = 1.
Proof. do 3 eexists. vm_compute. repeat split; reflexivity. Qed.

(** C6, amended: for a list of items whose identifiers and contents hold
    nothing the parser reads as markup, [renderTodos] leaves the container
    with one block per item, in order, each with the identifier of its
    item, its content in a text node and one delete control; so it is once
    the first fetch of the application is answered with that list. *)
Theorem renderTodos_blocks L p :
  forallb plain_item L = true ->
  rendered_as_blocks L (View.renderTodos L p)
  /\ forall res,
      APIs.json_body res = Some (VItems L) ->
      exists a,
        Controller.step (Controller.boot p)
          (Controller.Settle 0 (APIs.Responded res)) = Some a
        /\ Model.get_todos (Controller.state a) = L
        /\ rendered_as_blocks L (Controller.page a).
Proof.
  intros H.
  assert (R : forall q, rendered_as_blocks L (View.renderTodos L q)).
  { intros q. destruct (childNodes_renderTodos L q H) as (ns & E & C).
    exists ns. split; [exact E|]. rewrite C. apply blocks_for. }
  split; [apply R|].
  intros res B.
  exists (Controller.with_state
            (Controller.forget 0 (Controller.boot p))
            {| Model.todos := L; Model.onChange := Some Controller.render |}
            (View.renderTodos L p)).
  split; [|split; [reflexivity|apply R]].
  cbn [Controller.step]. unfold Controller.boot, Controller.init.
  cbn [Controller.pending Controller.setUpAddHandler Controller.issue
       Controller.next Controller.with_state Controller.construct].
  rewrite lookup_insert_eq. cbn [APIs.settle APIs.getTodos APIs.fetch_then_json].
  unfold APIs.res_json. rewrite B. reflexivity.
Qed.

Lemma renderTodos_blocks_witness :
  let L := [{| id := "42"; content := "Buy milk" |};
            {| id := "7"; content := "" |}] in
  rendered_as_blocks L (View.renderTodos L empty_page)
  /\ forall res,
      APIs.json_body res = Some (VItems L) ->
      exists a,
        Controller.step (Controller.boot empty_page)
          (Controller.Settle 0 (APIs.Responded res)) = Some a
        /\ Model.get_todos (Controller.state a) = L
        /\ rendered_as_blocks L (Controller.page a).
Proof.
  intros L. apply (renderTodos_blocks L empty_page). vm_compute. reflexivity.
Defined.

End rendering.

(** ** The states the application reaches *)
Section reachable.
Import Controller.

(** The markup of a list of items: what [renderTodos] assigns. *)
Definition markup (L : list Item) : string :=
  fold_left (fun acc todo => acc +:+ View.todoItemTemp todo) L "".

(** Which then-callback waits for which call. *)
Definition paired (c : APIs.call) (k : kont) : Prop :=
  (c = APIs.getTodos /\ (k = ThenInit \/ k = ThenRefetch))
  \/ (exists n, c = APIs.createTodo n /\ k = ThenCreate)
  \/ (exists i, c = APIs.deleteTodo i /\ k = ThenDelete).

(** A request the script can send. *)
Definition api_request (r : APIs.request) : Prop :=
  r = APIs.req APIs.getTodos
  \/ (exists n, r = APIs.req (APIs.createTodo n))
  \/ (exists i, r = APIs.req (APIs.deleteTodo i)).

(** The shape the endpoint answers a call with: a list of items to the
    GET, an item to a POST, anything to a DELETE. *)
Definition answers (c : APIs.call) (v : value) : Prop :=
  match APIs.meth (APIs.req c) with
  | APIs.GET => exists l, v = VItems l
  | APIs.POST => exists t, v = VItem t
  | APIs.DELETE => True
  end.

(** What holds of the application from the end of the script on, on a page
    [p0]. *)
Record inv (p0 : View.Page) (a : App) : Prop := {
  inv_subscribed : subscribed a;
  inv_add : addBtnEl_listener a = true;
  inv_list : todolistEl_listener a = true;
  inv_errors : Forall (fun e => e = NetworkError \/ e = ParseError) (unhandled a);
  inv_view :
    (Model.get_todos (state a) = []
     /\ View.todolistEl_innerHTML (page a) = View.todolistEl_innerHTML p0)
    \/ View.todolistEl_innerHTML (page a) = markup (Model.get_todos (state a));
  inv_pending : forall rid c k,
    pending a !! rid = Some (c, k) -> rid < next a /\ paired c k;
  inv_sent : Forall api_request (sent a);
  inv_count : length (sent a) = next a
}.

Lemma paired_settle c k : paired c k -> APIs.settle c = APIs.fetch_then_json.
Proof.
  intros [[-> _]|[(n & -> & _)|(i & -> & _)]]; reflexivity.
Qed.

Lemma fetch_then_json_errors t e :
  APIs.fetch_then_json t = Rejected e -> e = NetworkError \/ e = ParseError.
Proof.
  destruct t as [|res]; simpl.
  - intros [= <-]. now left.
  - unfold APIs.res_json. destruct (APIs.json_body res); [discriminate|].
    intros [= <-]. now right.
Qed.

Lemma then_cb_subscribed k data a :
  subscribed a ->
  then_cb k data a
  = match k, data with
    | ThenInit, VItems l | ThenRefetch, VItems l =>
        Some (with_state a
                {| Model.todos := l; Model.onChange := Some render |}
                (View.renderTodos l (page a)))
    | ThenCreate, VItem t =>
        Some (with_state a
                {| Model.todos := (Model.get_todos (state a) ++ [t])%list;
                   Model.onChange := Some render |}
                (View.clearInput
                   (View.renderTodos (Model.get_todos (state a) ++ [t])
                      (page a))))
    | ThenDelete, _ => Some (issue APIs.getTodos ThenRefetch a)
    | _, _ => None
    end.
Proof.
  intros S. destruct k, data; try reflexivity; unfold then_cb;
    rewrite (assign_subscribed _ _ S); reflexivity.
Qed.

Lemma inv_boot p0 : inv p0 (boot p0).
Proof.
  split.
  - reflexivity.
  - reflexivity.
  - reflexivity.
  - constructor.
  - left. split; reflexivity.
  - intros rid c k H. unfold boot, init in H. simpl in H.
    destruct (decide (rid = 0)) as [->|N].
    + rewrite lookup_insert_eq in H. injection H as <- <-.
      split; [simpl; lia|]. left. auto.
    + rewrite lookup_insert_ne in H by auto. rewrite lookup_empty in H.
      discriminate.
  - constructor; [left; reflexivity|constructor].
  - reflexivity.
Qed.

Lemma inv_issue p0 a c k :
  inv p0 a -> paired c k -> api_request (APIs.req c) -> inv p0 (issue c k a).
Proof.
  intros [I1 I2 I3 I4 I5 I6 I7 I8] P R. split; simpl; auto.
  - intros rid c' k' H. destruct (decide (rid = next a)) as [->|N].
    + rewrite lookup_insert_eq in H. injection H as <- <-. split; [lia|exact P].
    + rewrite lookup_insert_ne in H by auto.
      destruct (I6 _ _ _ H). split; [lia|assumption].
  - apply Forall_app. split; [exact I7|]. constructor; [exact R|constructor].
  - rewrite length_app. simpl. lia.
Qed.

Lemma inv_forget p0 a rid : inv p0 a -> inv p0 (forget rid a).
Proof.
  intros [I1 I2 I3 I4 I5 I6 I7 I8]. split; simpl; auto.
  intros r c k H. destruct (decide (r = rid)) as [->|N].
  - rewrite lookup_delete_eq in H. discriminate.
  - rewrite lookup_delete_ne in H by auto. eauto.
Qed.

Lemma inv_step p0 a e a' : inv p0 a -> step a e = Some a' -> inv p0 a'.
Proof.
  intros I H. destruct e as [v| |target|rid t]; simpl in H.
  - injection H as <-. destruct I. split; simpl; auto.
  - injection H as <-. rewrite (inv_add _ _ I).
    apply inv_issue; [exact I| |].
    + right. left. eauto.
    + right. left. eauto.
  - injection H as <-. rewrite (inv_list _ _ I). unfold on_list_click.
    destruct (String.eqb _ _); [|exact I].
    apply inv_issue; [exact I| |]; right; right; eauto.
  - destruct (pending a !! rid) as [[c k]|] eqn:E; [|discriminate].
    destruct (inv_pending _ _ I _ _ _ E) as [_ P].
    rewrite (paired_settle _ _ P) in H.
    pose proof (inv_forget p0 a rid I) as J.
    destruct (APIs.fetch_then_json t) as [data|err] eqn:F.
    + rewrite then_cb_subscribed in H by apply J.
      destruct J as [J1 J2 J3 J4 J5 J6 J7 J8].
      destruct k, data; try discriminate; injection H as <-.
      * split; simpl; auto; reflexivity.
      * split; simpl; auto; reflexivity.
      * apply inv_issue; [split; auto| |]; left; auto.
      * apply inv_issue; [split; auto| |]; left; auto.
      * apply inv_issue; [split; auto| |]; left; auto.
      * split; simpl; auto; reflexivity.
    + injection H as <-. destruct J as [J1 J2 J3 J4 J5 J6 J7 J8].
      split; simpl; auto.
      apply Forall_app. split; [exact J4|].
      constructor; [exact (fetch_then_json_errors _ _ F)|constructor].
Qed.

Lemma inv_run p0 es : forall a a',
  inv p0 a -> run a es = Some a' -> inv p0 a'.
Proof.
  induction es as [|e es IH]; intros a a' I H; simpl in H.
  - now injection H as <-.
  - destruct (step a e) as [a1|] eqn:E; [|discriminate].
    exact (IH _ _ (inv_step _ _ _ _ I E) H).
Qed.


(** Which events the model follows, from a state the application
    reaches: all of them but the answer to a request that is not pending
    and the JSON answer that has not the shape of its call. *)
Lemma step_defined p0 es a e :
  run (boot p0) es = Some a ->
  step a e = None <->
  exists rid t,
    e = Settle rid t
    /\ (pending a !! rid = None
        \/ exists c k v,
             pending a !! rid = Some (c, k)
             /\ APIs.fetch_then_json t = Fulfilled v /\ ~ answers c v).
Proof.
  intros H. pose proof (inv_run p0 es _ _ (inv_boot p0) H) as I. split.
  - destruct e as [v| |target|rid t]; try discriminate.
    intros N. exists rid, t. split; [reflexivity|].
    unfold step in N.
    destruct (pending a !! rid) as [[c k]|] eqn:E; [|now left]. right.
    destruct (inv_pending _ _ I _ _ _ E) as [_ P].
    rewrite (paired_settle _ _ P) in N.
    destruct (APIs.fetch_then_json t) as [v|err]; [|discriminate].
    exists c, k, v. repeat split.
    rewrite then_cb_subscribed in N by apply (inv_forget p0 a rid I).
    destruct P as [[-> [-> | ->]]|[(n & -> & ->)|(i & -> & ->)]];
      destruct v; try discriminate; cbn; intros [x X]; discriminate.
  - intros (rid & t & -> & [E|(c & k & v & E & F & A)]); unfold step; rewrite E;
      [reflexivity|].
    destruct (inv_pending _ _ I _ _ _ E) as [_ P].
    rewrite (paired_settle _ _ P), F.
    rewrite then_cb_subscribed by apply (inv_forget p0 a rid I).
    destruct P as [[-> [-> | ->]]|[(n & -> & ->)|(i & -> & ->)]];
      destruct v; try reflexivity; exfalso; apply A; cbn; eauto.
Qed.

(** An example run: the add button is clicked, the POST fails, and the
    answer to the first GET is not JSON. *)
Definition failing_run : list event :=
  [ClickAdd; Settle 1 APIs.Failed;
   Settle 0 (APIs.Responded {| APIs.status := 500; APIs.json_body := None |})].

(** X1: through every run of typing, clicks, failed requests and answers
    that have the shape of their call (the runs of the model, by
    [step_defined]), the callback of the container is the one that
    renders and both listeners are attached; every rejection left
    unhandled is the one of [fetch] or the one of [res.json()], none
    comes from the setter finding no callback. *)
Theorem assignments_never_throw p0 es a :
  run (boot p0) es = Some a ->
  subscribed a
  /\ addBtnEl_listener a = true /\ todolistEl_listener a = true
  /\ Forall (fun e => e = NetworkError \/ e = ParseError) (unhandled a)
  /\ ~ In TypeError (unhandled a).
Proof.
  intros H. destruct (inv_run p0 es _ _ (inv_boot p0) H)
    as [I1 I2 I3 I4 _ _ _ _].
  repeat split; auto.
  intros N. rewrite Forall_forall in I4.
  apply list_elem_of_In in N. destruct (I4 _ N); discriminate.
Qed.

Lemma assignments_never_throw_witness :
  let a := after (boot page0) failing_run in
  subscribed a
  /\ addBtnEl_listener a = true /\ todolistEl_listener a = true
  /\ Forall (fun e => e = NetworkError \/ e = ParseError) (unhandled a)
  /\ ~ In TypeError (unhandled a).
Proof.
  intros a. apply (assignments_never_throw page0 failing_run a).
  vm_compute. reflexivity.
Defined.

(** X2: through every run of typing, clicks, failed requests and answers
    that have the shape of their call (the runs of the model, by
    [step_defined]), the list container shows the collection: its markup
    is the one [renderTodos] writes for the current collection, or, as
    long as nothing was assigned, the collection is empty and the markup
    is still the one the page came with. *)
Theorem view_mirrors_model p0 es a :
  run (boot p0) es = Some a ->
  (Model.get_todos (state a) = []
   /\ View.todolistEl_innerHTML (page a) = View.todolistEl_innerHTML p0)
  \/ View.todolistEl_innerHTML (page a)
     = View.todolistEl_innerHTML
         (View.renderTodos (Model.get_todos (state a)) (page a)).
Proof.
  intros H. exact (inv_view _ _ (inv_run p0 es _ _ (inv_boot p0) H)).
Qed.

Lemma view_mirrors_model_witness :
  let es := [ClickAdd; Settle 0 (answer 200 (VItems [eggs]));
             Input "x"; Settle 1 (answer 201 (VItem milk))] in
  let a := after (boot page0) es in
  (Model.get_todos (state a) = []
   /\ View.todolistEl_innerHTML (page a) = View.todolistEl_innerHTML page0)
  \/ View.todolistEl_innerHTML (page a)
     = View.todolistEl_innerHTML
         (View.renderTodos (Model.get_todos (state a)) (page a)).
Proof.
  intros es a. apply (view_mirrors_model page0 es a). vm_compute. reflexivity.
Defined.

Definition is_answer (e : event) : bool :=
  match e with
  | Settle _ _ => true
  | _ => false
  end.

(** X3: typing and clicking change neither the collection nor the markup
    of the list, and leave no error: only the answer to a request does.
    A click leaves the input field as it is, too. *)
Theorem only_answers_change_the_list a e :
  is_answer e = false ->
  exists a',
    step a e = Some a'
    /\ state a' = state a
    /\ View.todolistEl_innerHTML (page a') = View.todolistEl_innerHTML (page a)
    /\ unhandled a' = unhandled a
    /\ ((forall v, e <> Input v) -> page a' = page a).
Proof.
  intros H. destruct e as [v| |target|rid t]; [| | |discriminate].
  - eexists. split; [reflexivity|]. simpl. repeat split.
    intros N. now destruct (N v).
  - eexists. split; [reflexivity|].
    destruct (addBtnEl_listener a); simpl; auto.
  - eexists. split; [reflexivity|].
    destruct (todolistEl_listener a); simpl; auto.
    unfold on_list_click. destruct (String.eqb _ _); simpl; auto.
Qed.

Lemma only_answers_change_the_list_witness :
  let a := after (boot page0) [Settle 0 (answer 200 (VItems [milk; eggs]))] in
  let e := ClickList (delete_btn_of "42") in
  exists a',
    step a e = Some a'
    /\ state a' = state a
    /\ View.todolistEl_innerHTML (page a') = View.todolistEl_innerHTML (page a)
    /\ unhandled a' = unhandled a
    /\ ((forall v, e <> Input v) -> page a' = page a).
Proof.
  intros a e. apply (only_answers_change_the_list a e). reflexivity.
Defined.

(** X4: when the promise of a pending request is rejected, because the
    transport failed or the body is not JSON, the collection, the page
    (the input field is not cleared) and the requests sent stay as they
    are, the error is left unhandled and the promise is gone: a DELETE
    that fails is not followed by a GET. *)
Theorem rejected_answer_changes_nothing p0 es a rid c k t e :
  run (boot p0) es = Some a ->
  pending a !! rid = Some (c, k) ->
  APIs.fetch_then_json t = Rejected e ->
  exists a',
    step a (Settle rid t) = Some a'
    /\ state a' = state a /\ page a' = page a /\ sent a' = sent a
    /\ next a' = next a
    /\ unhandled a' = (unhandled a ++ [e])%list
    /\ pending a' = delete rid (pending a).
Proof.
  intros H P F.
  pose proof (inv_run p0 es _ _ (inv_boot p0) H) as I.
  destruct (inv_pending _ _ I _ _ _ P) as [_ Q].
  exists (reject e (forget rid a)). split; [|simpl; auto 10].
  simpl. rewrite P, (paired_settle _ _ Q), F. reflexivity.
Qed.

Lemma rejected_answer_changes_nothing_witness :
  let a := after (boot page0)
             [Settle 0 (answer 200 (VItems [milk]));
              ClickList (delete_btn_of "42")] in
  exists a',
    step a (Settle 1 APIs.Failed) = Some a'
    /\ state a' = state a /\ page a' = page a /\ sent a' = sent a
    /\ next a' = next a
    /\ unhandled a' = (unhandled a ++ [NetworkError])%list
    /\ pending a' = delete 1 (pending a).
Proof.
  intros a.
  apply (rejected_answer_changes_nothing page0
           [Settle 0 (answer 200 (VItems [milk]));
            ClickList (delete_btn_of "42")]
           a 1 (APIs.deleteTodo (Some "42")) ThenDelete APIs.Failed
           NetworkError); vm_compute; reflexivity.
Defined.

Lemma step_list_answer a rid k res L :
  subscribed a ->
  pending a !! rid = Some (APIs.getTodos, k) ->
  k = ThenInit \/ k = ThenRefetch ->
  APIs.json_body res = Some (VItems L) ->
  step a (Settle rid (APIs.Responded res))
  = Some (with_state (forget rid a)
            {| Model.todos := L; Model.onChange := Some render |}
            (View.renderTodos L (page a))).
Proof.
  intros S P K B. unfold step. rewrite P.
  cbn [APIs.settle APIs.getTodos APIs.fetch_then_json].
  unfold APIs.res_json. rewrite B.
  rewrite then_cb_subscribed by exact S. now destruct K as [-> | ->].
Qed.

Lemma step_item_answer a rid n res t :
  subscribed a ->
  pending a !! rid = Some (APIs.createTodo n, ThenCreate) ->
  APIs.json_body res = Some (VItem t) ->
  step a (Settle rid (APIs.Responded res))
  = Some (with_state (forget rid a)
            {| Model.todos := (Model.get_todos (state a) ++ [t])%list;
               Model.onChange := Some render |}
            (View.clearInput
               (View.renderTodos (Model.get_todos (state a) ++ [t])
                  (page a)))).
Proof.
  intros S P B. unfold step. rewrite P.
  cbn [APIs.settle APIs.createTodo APIs.fetch_then_json].
  unfold APIs.res_json. rewrite B.
  now rewrite then_cb_subscribed by exact S.
Qed.

(** X5: nothing orders the answers.  With a GET of the list and a POST
    both pending, the collection ends as the list with the new item
    appended when the list arrives first, and as the list alone when it
    arrives last: the answer that arrives last decides. *)
Theorem last_answer_wins a r1 r2 k n res1 res2 L t :
  subscribed a ->
  r1 <> r2 ->
  pending a !! r1 = Some (APIs.getTodos, k) ->
  k = ThenInit \/ k = ThenRefetch ->
  pending a !! r2 = Some (APIs.createTodo n, ThenCreate) ->
  APIs.json_body res1 = Some (VItems L) ->
  APIs.json_body res2 = Some (VItem t) ->
  exists a12 a21,
    run a [Settle r1 (APIs.Responded res1); Settle r2 (APIs.Responded res2)]
    = Some a12
    /\ run a [Settle r2 (APIs.Responded res2); Settle r1 (APIs.Responded res1)]
      = Some a21
    /\ Model.get_todos (state a12) = (L ++ [t])%list
    /\ Model.get_todos (state a21) = L.
Proof.
  intros S N P1 K P2 B1 B2.
  cbn [run].
  rewrite (step_list_answer a r1 k res1 L S P1 K B1).
  rewrite (step_item_answer a r2 n res2 t S P2 B2).
  erewrite step_item_answer; [|reflexivity| |exact B2].
  2: { simpl. rewrite lookup_delete_ne by exact N. exact P2. }
  erewrite step_list_answer; [|reflexivity| |exact K|exact B1].
  2: { simpl. rewrite lookup_delete_ne by auto. exact P1. }
  do 2 eexists. repeat split.
Qed.

(** X6: items are appended in the order the answers arrive, whatever the
    order of the clicks: of two pending POSTs, the one answered first
    comes first in the collection, and the input field is empty after
    each. *)
Theorem appends_follow_answers a r1 r2 n1 n2 res1 res2 t1 t2 :
  subscribed a ->
  r1 <> r2 ->
  pending a !! r1 = Some (APIs.createTodo n1, ThenCreate) ->
  pending a !! r2 = Some (APIs.createTodo n2, ThenCreate) ->
  APIs.json_body res1 = Some (VItem t1) ->
  APIs.json_body res2 = Some (VItem t2) ->
  exists a',
    run a [Settle r2 (APIs.Responded res2); Settle r1 (APIs.Responded res1)]
    = Some a'
    /\ Model.get_todos (state a')
       = (Model.get_todos (state a) ++ [t2; t1])%list
    /\ View.getInputValue (page a') = ""
    /\ View.todolistEl_innerHTML (page a')
       = View.todolistEl_innerHTML
           (View.renderTodos (Model.get_todos (state a) ++ [t2; t1]) (page a)).
Proof.
  intros S N P1 P2 B1 B2.
  cbn [run].
  rewrite (step_item_answer a r2 n2 res2 t2 S P2 B2).
  erewrite step_item_answer; [|reflexivity| |exact B1].
  2: { simpl. rewrite lookup_delete_ne by auto. exact P1. }
  eexists. split; [reflexivity|]. simpl.
  rewrite <- app_assoc. auto.
Qed.

Lemma last_answer_wins_witness :
  let a := after (boot page0) [ClickAdd] in
  exists a12 a21,
    run a [Settle 0 (answer 200 (VItems [eggs])); Settle 1 (answer 201 (VItem milk))]
    = Some a12
    /\ run a [Settle 1 (answer 201 (VItem milk)); Settle 0 (answer 200 (VItems [eggs]))]
      = Some a21
    /\ Model.get_todos (state a12) = [eggs; milk]
    /\ Model.get_todos (state a21) = [eggs].
Proof.
  intros a.
  apply (last_answer_wins a 0 1 ThenInit {| APIs.nt_content := "Buy milk" |}
           {| APIs.status := 200; APIs.json_body := Some (VItems [eggs]) |}
           {| APIs.status := 201; APIs.json_body := Some (VItem milk) |}
           [eggs] milk);
    first [discriminate | left; reflexivity | vm_compute; reflexivity].
Defined.

Lemma appends_follow_answers_witness :
  let a := after (boot page0)
             [Settle 0 (answer 200 (VItems [])); ClickAdd; Input "Eggs";
              ClickAdd] in
  exists a',
    run a [Settle 2 (answer 201 (VItem eggs)); Settle 1 (answer 201 (VItem milk))]
    = Some a'
    /\ Model.get_todos (state a') = [eggs; milk]
    /\ View.getInputValue (page a') = ""
    /\ View.todolistEl_innerHTML (page a')
       = View.todolistEl_innerHTML (View.renderTodos [eggs; milk] (page a)).
Proof.
  intros a.
  apply (appends_follow_answers a 1 2
           {| APIs.nt_content := "Buy milk" |} {| APIs.nt_content := "Eggs" |}
           {| APIs.status := 201; APIs.json_body := Some (VItem milk) |}
           {| APIs.status := 201; APIs.json_body := Some (VItem eggs) |}
           milk eggs);
    first [discriminate | vm_compute; reflexivity].
Defined.






(** X10: every pending promise waits with the then-callback of its call:
    a GET with one of the two callbacks that assign the list, a POST with
    the one that appends, a DELETE with the one that fetches again.  So
    whenever the endpoint answers a pending request with JSON of the
    shape of its call, the then-callback runs. *)
Theorem answers_are_handled p0 es a rid c k res v :
  run (boot p0) es = Some a ->
  pending a !! rid = Some (c, k) ->
  APIs.json_body res = Some v ->
  answers c v ->
  paired c k
  /\ exists a', step a (Settle rid (APIs.Responded res)) = Some a'.
Proof.
  intros H P B A. pose proof (inv_run p0 es _ _ (inv_boot p0) H) as I.
  destruct (inv_pending _ _ I _ _ _ P) as [_ Q]. split; [exact Q|].
  unfold step. rewrite P, (paired_settle _ _ Q).
  cbn [APIs.fetch_then_json]. unfold APIs.res_json. rewrite B.
  rewrite then_cb_subscribed by apply (inv_forget p0 a rid I).
  destruct Q as [[-> [-> | ->]]|[(n & -> & ->)|(i & -> & ->)]]; cbn in A.
  - destruct A as [l ->]. eexists. reflexivity.
  - destruct A as [l ->]. eexists. reflexivity.
  - destruct A as [x ->]. eexists. reflexivity.
  - eexists. reflexivity.
Qed.

Lemma answers_are_handled_witness :
  let es := [ClickAdd] in
  let a := after (boot page0) es in
  let c := APIs.createTodo {| APIs.nt_content := "Buy milk" |} in
  paired c ThenCreate
  /\ exists a', step a (Settle 1 (answer 201 (VItem milk))) = Some a'.
Proof.
  intros es a c.
  apply (answers_are_handled page0 es a 1 c ThenCreate
           {| APIs.status := 201; APIs.json_body := Some (VItem milk) |}
           (VItem milk)); try (vm_compute; reflexivity).
  exists milk. reflexivity.
Defined.

End reachable.

(** ** More on what the view writes *)
Section view.
Import DOM.

Lemma markup_app L1 L2 : markup (L1 ++ L2) = markup L1 +:+ markup L2.
Proof.
  unfold markup. rewrite fold_left_app.
  rewrite (fold_templates L2 (fold_left _ L1 "")).
  now rewrite (fold_templates L2 "").
Qed.

(** X8: [renderTodos] replaces the markup of the container by one that
    depends on the list alone, not on what the container held, and leaves
    the input field as it is; the markup of a list is the markup of its
    parts one after the other, and the empty list leaves the container
    without a child. *)
Theorem renderTodos_replaces L L1 L2 p :
  View.renderTodos L (View.renderTodos L1 p) = View.renderTodos L p
  /\ View.getInputValue (View.renderTodos L p) = View.getInputValue p
  /\ View.todolistEl_innerHTML (View.renderTodos (L1 ++ L2) p)
     = View.todolistEl_innerHTML (View.renderTodos L1 p)
       +:+ View.todolistEl_innerHTML (View.renderTodos L2 p)
  /\ View.todolistEl_innerHTML (View.renderTodos [] p) = ""
  /\ View.childNodes (View.renderTodos [] p) = Some [].
Proof.
  split; [reflexivity|]. split; [reflexivity|].
  split; [apply markup_app|]. split; reflexivity.
Qed.

(** The identifier of the list container, by which the view selects it. *)
Definition container_id : string := "todo_list-container".

(** The elements of a tree a click can have as its target, each as the
    listener of the container reads it: its class name and the [id]
    attribute of its parent element. *)
Fixpoint click_targets (parent : option string) (n : node)
  : list Controller.element :=
  match n with
  | Text _ => []
  | Element _ attrs ks =>
      {| Controller.className := className n;
         Controller.parent_id := parent |}
      :: flat_map (click_targets (assoc "id" attrs)) ks
  end.

Definition targets_of (p : View.Page) : option (list Controller.element) :=
  match View.childNodes p with
  | Some ns => Some (flat_map (click_targets (Some container_id)) ns)
  | None => None
  end.

Definition is_delete_control (e : Controller.element) : bool :=
  String.eqb (Controller.className e) View.delete_btn_class.

Lemma flat_map_children {B} (f : node -> list B) (ns : list node) :
  (forall d, f (Text d) = []) ->
  flat_map f ns = flat_map f (children ns).
Proof.
  intros H. unfold children.
  induction ns as [|[d|tn at_ ks] ns IH]; [reflexivity| |].
  - cbn [flat_map List.filter is_element]. now rewrite H.
  - cbn [flat_map List.filter is_element]. now rewrite IH.
Qed.

Lemma delete_controls_of_blocks parent L :
  List.filter is_delete_control
    (flat_map (click_targets parent) (map block_of L))
  = map (fun t => delete_btn_of (id t)) L.
Proof.
  induction L as [|t L IH]; [reflexivity|].
  cbn [map flat_map]. rewrite List.filter_app, IH. reflexivity.
Qed.

(** X7: the delete controls a click can hit in the list [renderTodos]
    wrote, for items that hold no markup, are one per item, in order, each
    under the identifier of its item; a click on the one of an item sends
    the DELETE of that item and nothing else. *)
Theorem delete_controls_match_items L p a :
  forallb plain_item L = true ->
  Controller.todolistEl_listener a = true ->
  exists ts,
    targets_of (View.renderTodos L p) = Some ts
    /\ List.filter is_delete_control ts
       = map (fun t => delete_btn_of (id t)) L
    /\ Forall (fun t =>
         Controller.step a (Controller.ClickList (delete_btn_of (id t)))
         = Some (Controller.issue (APIs.deleteTodo (Some (id t)))
                   Controller.ThenDelete a)) L.
Proof.
  intros H Hl. destruct (childNodes_renderTodos L p H) as (ns & E & C).
  unfold targets_of. rewrite E. eexists. split; [reflexivity|]. split.
  - rewrite flat_map_children by reflexivity. rewrite C.
    apply delete_controls_of_blocks.
  - apply Forall_forall. intros t _. cbn [Controller.step]. rewrite Hl.
    reflexivity.
Qed.

Lemma delete_controls_match_items_witness :
  let L := [milk; eggs] in
  let a := after (Controller.boot page0)
             [Controller.Settle 0 (answer 200 (VItems L))] in
  exists ts,
    targets_of (View.renderTodos L page0) = Some ts
    /\ List.filter is_delete_control ts
       = [delete_btn_of "42"; delete_btn_of "7"]
    /\ Forall (fun t =>
         Controller.step a (Controller.ClickList (delete_btn_of (id t)))
         = Some (Controller.issue (APIs.deleteTodo (Some (id t)))
                   Controller.ThenDelete a)) L.
Proof.
  intros L a.
  apply (delete_controls_match_items L page0 a); vm_compute; reflexivity.
Defined.

(** X11: a click on a delete control whose parent element has no [id]
    attribute calls [deleteTodo] with [null], and the address it fetches
    ends in [/null]: the request is the one for an item whose identifier
    reads null. *)
Theorem delete_without_id a target :
  Controller.todolistEl_listener a = true ->
  Controller.className target = View.delete_btn_class ->
  Controller.parent_id target = None ->
  exists a',
    Controller.step a (Controller.ClickList target) = Some a'
    /\ Controller.sent a'
       = (Controller.sent a ++
          [{| APIs.url := APIs.baseURL +:+ "/null";
              APIs.meth := APIs.DELETE;
              APIs.content_type_json := true;
              APIs.body := None |}])%list
    /\ Controller.sent a'
       = (Controller.sent a ++ [APIs.req (APIs.deleteTodo (Some "null"))])%list
    /\ Controller.pending a' !! Controller.next a
       = Some (APIs.deleteTodo None, Controller.ThenDelete).
Proof.
  intros Hl Hc Hp.
  exists (Controller.issue (APIs.deleteTodo None) Controller.ThenDelete a).
  split; [|split; [reflexivity|split; [reflexivity|]]].
  - cbn [Controller.step]. rewrite Hl. unfold Controller.on_list_click.
    rewrite Hc, Hp, String.eqb_refl. reflexivity.
  - simpl. apply lookup_insert_eq.
Qed.

Lemma delete_without_id_witness :
  let a := Controller.boot page0 in
  let target := {| Controller.className := View.delete_btn_class;
                   Controller.parent_id := None |} in
  exists a',
    Controller.step a (Controller.ClickList target) = Some a'
    /\ Controller.sent a'
       = (Controller.sent a ++
          [{| APIs.url := APIs.baseURL +:+ "/null";
              APIs.meth := APIs.DELETE;
              APIs.content_type_json := true;
              APIs.body := None |}])%list
    /\ Controller.sent a'
       = (Controller.sent a ++ [APIs.req (APIs.deleteTodo (Some "null"))])%list
    /\ Controller.pending a' !! Controller.next a
       = Some (APIs.deleteTodo None, Controller.ThenDelete).
Proof.
  intros a target. apply (delete_without_id a target); reflexivity.
Defined.

End view.
